(** * A shallow embedding of [src/cmds/run.rs] (bandsnatch, the [run] command)

    The [run] command lists a user's purchases, drops those already in the
    cache, truncates to a limit, loads the rest into a shared work queue and
    lets [jobs] worker threads run the per-item dispatch loop on it.

    Modelling choices:
    - timestamps ([DateTime<Utc>]) are [Z] seconds; [and_utc] is the identity;
    - the external collaborators (chrono's parser, the Bandcamp API, the file
      system, the cache file's I/O) are fields of a record [Env];
    - the effects a worker has on the world are an event trace, the cache file
      is a list of [(id, description)] records in file order, and the dry-run
      results collector is a list of lines with its poison flag;
    - [debug!] output and progress-bar rendering are not modelled; [warn!] is
      the [Warn] event. *)

From Stdlib Require Import String List ZArith NArith Bool Lia.
Import ListNotations.
Open Scope string_scope.

(** ** Rust's [Result] *)
Inductive result (A E : Type) : Type :=
| Ok (a : A)
| Err (e : E).
Arguments Ok {A E} a.
Arguments Err {A E} e.

(** ** Data model *)

(** [api::DownloadUrlsInfo] entry: the release page URL and the purchase date
    string as Bandcamp sends it. *)
Record CollectionEntry := mkEntry {
  url : string;
  purchased : option string
}.

(** [api::DigitalItem]; [release_year()] is kept as its rendered string. *)
Record DigitalItem := mkItem {
  title : string;
  artist : string;
  release_year : string;
  downloads : option (list (string * string))
}.

(** The fields of [Args] the command reads. [limit] is a [usize]. *)
Record Args := mkArgs {
  after : option Z;
  audio_format : string;
  dry_run : bool;
  force : bool;
  jobs : nat;
  limit : option N;
  output_folder : string
}.

(** The external collaborators of the command. *)
Record Env := mkEnv {
  (** [chrono::NaiveDateTime::parse_from_str s fmt], [.ok()] applied *)
  chrono_parse_from_str : string -> string -> option Z;
  (** [shellexpand::tilde] *)
  shellexpand_tilde : string -> string;
  (** [fs::metadata(p)]: [Ok is_dir] or the I/O error *)
  fs_metadata : string -> result bool string;
  (** [fs::create_dir_all(p)] *)
  fs_create_dir_all : string -> result unit string;
  (** [cookies::get_bandcamp_cookies] *)
  get_bandcamp_cookies : result unit string;
  (** [api.get_download_urls(user, artist, album)?.download_urls], in the
      order its [into_iter] yields them *)
  get_download_urls : result (list (string * CollectionEntry)) string;
  (** [api.get_digital_item(url, debug)] *)
  get_digital_item : string -> result (option DigitalItem) string;
  (** [item.destination_path(root)] *)
  destination_path : DigitalItem -> string -> string;
  (** [api.download_item(item, path, audio_format, m)] *)
  download_item : DigitalItem -> string -> string -> result unit string;
  (** [m.println(format!("Trying {id}, {} - {} ({:?})", item.title,
      item.artist, item.is_single()))]: the outcome of writing that progress
      line for [id] and [item] *)
  progress_println : string -> DigitalItem -> result unit string;
  (** outcome of reading the whole cache file *)
  cache_read : result unit string;
  (** outcome of appending the record [(id, description)] to the cache file *)
  cache_append : string -> string -> result unit string
}.

(** Observable effects of the command, in the order they happen. *)
Inductive Event :=
| ExitProcess (code : Z)
| CreateDirAll (path : string)
| CacheOpen (path : string)
| CacheContent
| CacheAdd (id desc : string)
| CacheAddIfMissing (id desc : string)
| FetchItem (url : string)
| DownloadItem (path fmt : string)
| PushResult (line : string)
| Warn (msg : string).

(** Shared state: the cache file's records, the dry-run [results] vector and
    whether its mutex is poisoned, and the trace. *)
Record St := mkSt {
  cache : list (string * string);
  results : list string;
  results_poisoned : bool;
  trace : list Event
}.

Definition emit (e : Event) (s : St) : St :=
  mkSt s.(cache) s.(results) s.(results_poisoned) (s.(trace) ++ [e]).

Definition set_cache (c : list (string * string)) (s : St) : St :=
  mkSt c s.(results) s.(results_poisoned) s.(trace).

Definition push_result (line : string) (s : St) : St :=
  mkSt s.(cache) (s.(results) ++ [line]) s.(results_poisoned) (s.(trace) ++ [PushResult line]).

Definition mem (x : string) (l : list string) : bool :=
  existsb (String.eqb x) l.

(** ** The cache ([crate::cache], not part of [src/]) *)

(** Modelled from the spec: [Cache::content] of [crate::cache] (section 4.2),
    the set of ids recorded in the file; fails when the file cannot be read. *)
Definition cache_content (env : Env) (s : St) : result (list string) string :=
  match env.(cache_read) with
  | Ok _ => Ok (map fst s.(cache))
  | Err e => Err e
  end.

(** Modelled from the spec: [Cache::add] of [crate::cache] (section 4.2),
    appends a record unconditionally. *)
Definition cache_add (env : Env) (id desc : string) (s : St) : St * result unit string :=
  let s := emit (CacheAdd id desc) s in
  match env.(cache_append) id desc with
  | Ok _ => (set_cache (s.(cache) ++ [(id, desc)]) s, Ok tt)
  | Err e => (s, Err e)
  end.

(** Modelled from the spec: [Cache::add_if_missing] of [crate::cache]
    (section 4.2), appends a record only if none exists for [id]. *)
Definition cache_add_if_missing (env : Env) (id desc : string) (s : St)
    : St * result unit string :=
  let s := emit (CacheAddIfMissing id desc) s in
  if mem id (map fst s.(cache)) then (s, Ok tt)
  else match env.(cache_append) id desc with
       | Ok _ => (set_cache (s.(cache) ++ [(id, desc)]) s, Ok tt)
       | Err e => (s, Err e)
       end.

(** ** [run.rs]: date filtering *)

(** [DateTime::and_utc] on a naive date-time in seconds. *)
Definition and_utc (dt : Z) : Z := dt.

(** [parse_purchased_date]: Bandcamp's purchase date format. *)
Definition parse_purchased_date (env : Env) (s : string) : option Z :=
  let FORMAT := "%d %b %Y %T %Z" in
  option_map and_utc (env.(chrono_parse_from_str) s FORMAT).

(** [is_before_filter]: the [?] operators return [None] early. *)
Definition is_before_filter (env : Env) (after : option Z) (purchased : option string)
    : option Z :=
  match after with
  | None => None
  | Some after_date =>
      match purchased with
      | None => None
      | Some p =>
          match parse_purchased_date env p with
          | None => None
          | Some purchased_date =>
              if Z.ltb purchased_date after_date then Some purchased_date else None
          end
      end
  end.

(** [NaiveDate::and_hms_opt(h, m, s)] on a day number (days since the
    epoch): [None] unless [h < 24], [m < 60] and [s < 60]. *)
Definition and_hms_opt (date : Z) (h m sec : Z) : option Z :=
  if ((0 <=? h) && (h <? 24) && (0 <=? m) && (m <? 60) && (0 <=? sec) && (sec <? 60))%Z
  then Some (date * 86400 + h * 3600 + m * 60 + sec)%Z
  else None.

(** [parse_date], the value parser of [--after]. The date parser
    [chrono::NaiveDate::parse_from_str] is a parameter returning a day
    number; the outer [option] is [None] when [.unwrap()] panics. *)
Definition parse_date (naive_date_parse_from_str : string -> string -> option Z)
    (s : string) : option (result Z string) :=
  match naive_date_parse_from_str s "%Y-%m-%d" with
  | Some date =>
      match and_hms_opt date 0%Z 0%Z 0%Z with
      | Some dt => Some (Ok (and_utc dt))
      | None => None
      end
  | None => Some (Err ("Invalid date '" ++ s ++ "'. Use YYYY-MM-DD format."))
  end.

(** ** [run.rs]: queue construction *)

Definition usize_MAX : N := 18446744073709551615.

(** [Iterator::take]. *)
Fixpoint take {A} (n : N) (l : list A) : list A :=
  match l with
  | [] => []
  | x :: t => if (n =? 0)%N then [] else x :: take (n - 1) t
  end.

(** [items]: [download_urls.into_iter().filter(..).take(limit).collect()],
    with [limit = args.limit.unwrap_or(usize::MAX)]. *)
Definition build_items (force : bool) (cache_content : list string) (limit : option N)
    (download_urls : list (string * CollectionEntry)) : list (string * CollectionEntry) :=
  let limit := match limit with Some k => k | None => usize_MAX end in
  take limit (filter (fun '(x, _) => force || negb (mem x cache_content)) download_urls).

(** ** [run.rs]: startup, up to the construction of the queue *)

Inductive Startup :=
| StartExit (code : Z)
| StartErr (e : string)
| StartQueue (items : list (string * CollectionEntry)).

(** The body of [command] up to [WorkQueue::from_vec(items)]: checks the
    output root, obtains cookies, opens the cache, lists the purchases and
    reads the cache content; each [?] returns the error. *)
Definition command_setup (env : Env) (args : Args) (s : St) : St * Startup :=
  let root := env.(shellexpand_tilde) args.(output_folder) in
  let root_exists := match env.(fs_metadata) root with
                     | Ok d => Some d
                     | Err _ => None
                     end in
  let k (s : St) : St * Startup :=
    match env.(get_bandcamp_cookies) with
    | Err e => (s, StartErr e)
    | Ok _ =>
      let s := emit (CacheOpen (root ++ "/bandcamp-collection-downloader.cache")) s in
      match env.(get_download_urls) with
      | Err e => (s, StartErr e)
      | Ok download_urls =>
        let s := emit CacheContent s in
        match cache_content env s with
        | Err e => (s, StartErr e)
        | Ok cc => (s, StartQueue (build_items args.(force) cc args.(limit) download_urls))
        end
      end
    end in
  match root_exists with
  | Some true => k s
  | Some false => (emit (ExitProcess 1) s, StartExit 1)
  | None =>
      let s := emit (CreateDirAll root) s in
      match env.(fs_create_dir_all) root with
      | Err e => (s, StartErr e)
      | Ok _ => k s
      end
  end.

(** ** [run.rs]: the dispatch loop of a worker *)

(** What the body of the [while let] does after one item: [continue] to the
    next [get_work], or the thread panics. *)
Inductive Outcome := Next | Panicked.

(** [skip_err!]: on [Err e] warn and [continue]. *)
Definition skip_err {A} (sr : St * result A string) (k : A -> St -> St * Outcome)
    : St * Outcome :=
  let (s, r) := sr in
  match r with
  | Ok v => k v s
  | Err e => (emit (Warn ("An error: " ++ e ++ "; skipped.")) s, Next)
  end.

Definition done (s : St) : St * Outcome := (s, Next).

(** One iteration of the worker loop on [(id, info)]. *)
Definition process_item (env : Env) (args : Args) (s : St)
    (id : string) (info : CollectionEntry) : St * Outcome :=
  let root := env.(shellexpand_tilde) args.(output_folder) in
  match is_before_filter env args.(after) info.(purchased) with
  | Some _purchased_date =>
      skip_err (cache_add_if_missing env id "Skipped (--after filter)" s) (fun _ => done)
  | None =>
    let s := emit (FetchItem info.(url)) s in
    match env.(get_digital_item) info.(url) with
    | Err _ => (s, Next)
    | Ok None =>
        let s := emit (Warn ("Could not find digital item for " ++ id)) s in
        skip_err (cache_add env id "UNKNOWN" s) (fun _ => done)
    | Ok (Some item) =>
      match item.(downloads) with
      | None =>
          let s := emit (Warn ("Skipping " ++ id ++ ", does not have any downloads")) s in
          skip_err (cache_add env id "No downloads" s) (fun _ => done)
      | Some _ =>
        if args.(dry_run) then
          if s.(results_poisoned) then (s, Panicked)
          else (push_result (id ++ ", " ++ item.(title) ++ " - " ++ item.(artist)) s, Next)
        else
          (* [m.println(..).unwrap()] panics the thread on an I/O error *)
          match env.(progress_println) id item with
          | Err _ => (s, Panicked)
          | Ok _ =>
          let path := env.(destination_path) item root in
          let s := emit (CreateDirAll path) s in
          skip_err (s, env.(fs_create_dir_all) path) (fun _ s =>
          let s := emit (DownloadItem path args.(audio_format)) s in
          skip_err (s, env.(download_item) item path args.(audio_format)) (fun _ s =>
          skip_err (cache_add_if_missing env id
                      (item.(title) ++ " (" ++ item.(release_year) ++ ") by " ++ item.(artist)) s)
                   (fun _ => done)))
          end
      end
    end
  end.

(** A worker draining the items it pulls, in order, until [get_work]
    returns [None] or the thread panics. *)
Fixpoint worker_loop (env : Env) (args : Args) (s : St)
    (pulled : list (string * CollectionEntry)) : St * Outcome :=
  match pulled with
  | [] => (s, Next)
  | (id, info) :: rest =>
      match process_item env args s id info with
      | (s', Next) => worker_loop env args s' rest
      | (s', Panicked) => (s', Panicked)
      end
  end.

(** [thread::scope(..).unwrap()]: the scope returns [Err] when a spawned
    thread panicked, and [unwrap] panics the main thread. *)
Inductive CmdOutcome := CmdPanic | CmdFinished.

Definition scope_unwrap (worker_outcomes : list Outcome) : CmdOutcome :=
  if existsb (fun o => match o with Panicked => true | Next => false end) worker_outcomes
  then CmdPanic else CmdFinished.

(** Number of events of a kind in a trace. *)
Definition count_ev (p : Event -> bool) (l : list Event) : nat := length (filter p l).

Definition is_fetch (e : Event) : bool :=
  match e with FetchItem _ => true | _ => false end.

Definition is_download (e : Event) : bool :=
  match e with DownloadItem _ _ => true | _ => false end.

(** ** The work queue ([util::WorkQueue], not part of [src/]) *)

Module WorkQueue.

(** Modelled from the spec: [util::WorkQueue] of [crate::util] (section 4.1);
    every clone of the handle shares one vector behind one mutex, so the
    queue's state is a single list. [from_vec] keeps the given order. *)
Definition from_vec {A} (items : list A) : list A := items.

(** Modelled from the spec: [WorkQueue::get_work], one critical section that
    removes and returns the first element, or reports [None] at once. *)
Definition get_work {A} (q : list A) : option A * list A :=
  match q with
  | [] => (None, [])
  | x :: t => (Some x, t)
  end.

(** The [while let Some(..) = queue.get_work()] loops of the workers under a
    schedule: each entry of [sched] is the worker whose [get_work] call
    enters the critical section next. A worker that got [None] has left
    its loop ([exited]) and makes no further call. The result lists the
    deliveries [(worker, item)] in order, the queue left and the exited
    workers. *)
Fixpoint run_schedule {A} (sched : list nat) (q : list A) (exited : list nat)
    : list (nat * A) * list A * list nat :=
  match sched with
  | [] => ([], q, exited)
  | w :: rest =>
      if existsb (Nat.eqb w) exited then run_schedule rest q exited
      else match get_work q with
           | (Some x, q') =>
               let '(ds, qf, ex) := run_schedule rest q' exited in ((w, x) :: ds, qf, ex)
           | (None, q') => run_schedule rest q' (w :: exited)
           end
  end.

End WorkQueue.

(** ** A concrete environment, for examples *)

Definition item_ok : DigitalItem :=
  mkItem "Album" "Artist" "2021" (Some [("flac", "https://bandcamp.example/flac")]).
Definition item_nodl : DigitalItem := mkItem "Single" "Artist" "2020" None.

(** The scenario of the spec: [A] bought in 2019, [B] undated, [C] in 2021. *)
Definition demo_urls : list (string * CollectionEntry) :=
  [("A", mkEntry "u-a" (Some "01 Jan 2019 00:00:00 GMT"));
   ("B", mkEntry "u-b" None);
   ("C", mkEntry "u-c" (Some "01 Jan 2021 00:00:00 GMT"))].

Definition demo_env : Env := {|
  chrono_parse_from_str := fun s _ =>
    if String.eqb s "01 Jan 2019 00:00:00 GMT" then Some 1546300800%Z
    else if String.eqb s "01 Jan 2021 00:00:00 GMT" then Some 1609459200%Z
    else None;
  shellexpand_tilde := fun p => p;
  fs_metadata := fun p =>
    if String.eqb p "/music" then Ok true
    else if String.eqb p "/music.txt" then Ok false
    else Err "No such file or directory";
  fs_create_dir_all := fun _ => Ok tt;
  get_bandcamp_cookies := Ok tt;
  get_download_urls := Ok demo_urls;
  get_digital_item := fun u =>
    if String.eqb u "u-unknown" then Ok None
    else if String.eqb u "u-nodl" then Ok (Some item_nodl)
    else if String.eqb u "u-err" then Err "operation timed out"
    else Ok (Some item_ok);
  destination_path := fun it root => root ++ "/" ++ it.(artist) ++ "/" ++ it.(title);
  download_item := fun _ _ _ => Ok tt;
  progress_println := fun _ _ => Ok tt;
  cache_read := Ok tt;
  cache_append := fun _ _ => Ok tt
|}.

Definition demo_args (dry : bool) (frc : bool) (aft : option Z) (lim : option N)
    (root : string) : Args :=
  mkArgs aft "flac" dry frc 4 lim root.

Definition st0 : St := mkSt [] [] false [].

(** 2020-01-01T00:00:00Z *)
Definition cutoff_2020 : Z := 1577836800.

(** ** Generic list facts *)

Inductive subseq {A} : list A -> list A -> Prop :=
| subseq_nil : subseq [] []
| subseq_keep x l1 l2 : subseq l1 l2 -> subseq (x :: l1) (x :: l2)
| subseq_drop x l1 l2 : subseq l1 l2 -> subseq l1 (x :: l2).

#[local] Hint Constructors subseq : core.

Lemma subseq_refl {A} (l : list A) : subseq l l.
Proof. induction l; auto. Qed.

Lemma subseq_trans {A} (l1 l2 l3 : list A) :
  subseq l1 l2 -> subseq l2 l3 -> subseq l1 l3.
Proof.
  intros H12 H23. revert l1 H12.
  induction H23; intros l0 H; auto.
  inversion H; subst; auto.
Qed.

Lemma subseq_filter {A} (f : A -> bool) (l : list A) : subseq (filter f l) l.
Proof. induction l as [|x l IH]; simpl; [auto|]. destruct (f x); auto. Qed.

Lemma take_firstn {A} (n : N) (l : list A) : take n l = firstn (N.to_nat n) l.
Proof.
  revert n. induction l as [|x l IH]; intros n; simpl.
  - destruct (N.to_nat n); reflexivity.
  - destruct (N.eqb_spec n 0) as [->|Hn]; [reflexivity|].
    rewrite IH. replace (N.to_nat n) with (S (N.to_nat (n - 1))) by lia.
    reflexivity.
Qed.

Lemma subseq_take {A} (n : N) (l : list A) : subseq (take n l) l.
Proof.
  revert n. induction l as [|x l IH]; intros n; simpl; [auto|].
  destruct (n =? 0)%N; auto.
  apply subseq_drop. clear IH. induction l; auto.
Qed.

Lemma take_all {A} (n : N) (l : list A) : (N.of_nat (length l) <= n)%N -> take n l = l.
Proof.
  intros H. rewrite take_firstn. apply firstn_all2. lia.
Qed.

Lemma subseq_In {A} (l1 l2 : list A) x : subseq l1 l2 -> In x l1 -> In x l2.
Proof. induction 1; simpl; intuition. Qed.

Lemma mem_In x l : mem x l = true <-> In x l.
Proof.
  unfold mem. rewrite existsb_exists. split.
  - intros [y [Hy Heq]]. apply String.eqb_eq in Heq. subst; assumption.
  - intros H. exists x. split; [assumption|]. apply String.eqb_refl.
Qed.

Lemma filter_length_le {A} (f : A -> bool) (l : list A) : length (filter f l) <= length l.
Proof. induction l; simpl; [lia|]. destruct (f a); simpl; lia. Qed.

Module QueueFacts.

Lemma run_schedule_conserves {A} (sched : list nat) (q : list A) (ex0 : list nat) :
  forall ds qf ex, WorkQueue.run_schedule sched q ex0 = (ds, qf, ex) ->
  (map snd ds ++ qf)%list = q /\ (ex <> ex0 -> qf = []).
Proof.
  revert q ex0. induction sched as [|w sched IH]; intros q ex0 ds qf ex Hrun; simpl in Hrun.
  - inversion Hrun; subst. split; [reflexivity|]. intros H; congruence.
  - destruct (existsb (Nat.eqb w) ex0).
    + apply (IH _ _ _ _ _ Hrun).
    + destruct q as [|x q']; simpl in Hrun.
      * destruct (IH [] (w :: ex0) ds qf ex Hrun) as [H1 _].
        apply app_eq_nil in H1. destruct H1 as [Hd ->]. rewrite Hd.
        split; reflexivity.
      * destruct (WorkQueue.run_schedule sched q' ex0) as [[ds' qf'] ex'] eqn:Hr.
        inversion Hrun; subst.
        destruct (IH _ _ _ _ _ Hr) as [H1 H2]. simpl. rewrite H1. auto.
Qed.

End QueueFacts.

(** ** Facts about startup *)

Lemma command_setup_items env args s urls items :
  env.(get_download_urls) = Ok urls ->
  snd (command_setup env args s) = StartQueue items ->
  items = build_items args.(force) (map fst s.(cache)) args.(limit) urls.
Proof.
  intros Hu Hq. unfold command_setup, cache_content in Hq.
  destruct (fs_metadata env _) as [[|]|e]; simpl in Hq;
    [| discriminate | destruct (fs_create_dir_all env _); simpl in Hq; [|discriminate]];
    (destruct (get_bandcamp_cookies env); simpl in Hq; [|discriminate]);
    rewrite Hu in Hq; simpl in Hq;
    (destruct (cache_read env); simpl in Hq; [|discriminate]);
    inversion Hq; reflexivity.
Qed.

Example demo_queue :
  snd (command_setup demo_env (demo_args false false (Some cutoff_2020) None "/music")
         (mkSt [("B", "Old (2018) by Artist")] [] false []))
  = StartQueue [("A", mkEntry "u-a" (Some "01 Jan 2019 00:00:00 GMT"));
                ("C", mkEntry "u-c" (Some "01 Jan 2021 00:00:00 GMT"))].
Proof. reflexivity. Qed.

(** ** Queue construction *)

(** C2: with [force] off, the queue built at startup holds no entry whose id
    is in the cache content read at startup, keeps the purchase list's
    relative order, holds exactly the uncached entries when there is no
    limit, and for the cache {B} and the purchases [A; B; C] it is [A; C]. *)
Theorem cached_entries_dropped (env : Env) (args : Args) (s : St)
    (urls items : list (string * CollectionEntry))
    (Hforce : args.(force) = false)
    (Hurls : env.(get_download_urls) = Ok urls)
    (Hq : snd (command_setup env args s) = StartQueue items) :
  (forall x e, In (x, e) items -> ~ In x (map fst s.(cache)))
  /\ subseq items urls
  /\ (args.(limit) = None -> (N.of_nat (length urls) <= usize_MAX)%N ->
      forall x e, In (x, e) items <-> In (x, e) urls /\ ~ In x (map fst s.(cache)))
  /\ (forall eA eB eC : CollectionEntry,
        build_items false ["B"] None [("A", eA); ("B", eB); ("C", eC)]
        = [("A", eA); ("C", eC)]).
Proof.
  rewrite (command_setup_items env args s urls items Hurls Hq), Hforce.
  unfold build_items. set (cc := map fst s.(cache)).
  set (f := fun '(x, _) => false || negb (mem x cc)).
  assert (Hf : forall x e, f (x, e) = true <-> ~ In x cc).
  { intros x e. unfold f. simpl. rewrite negb_true_iff, <- mem_In.
    destruct (mem x cc); intuition congruence. }
  set (lim := match args.(limit) with Some k => k | None => usize_MAX end).
  split; [|split; [|split]].
  - intros x e Hin. apply (Hf x e).
    pose proof (subseq_In _ _ _ (subseq_take lim _) Hin) as Hin'.
    apply filter_In in Hin'. tauto.
  - eapply subseq_trans; [apply subseq_take|apply subseq_filter].
  - intros Hl Hlen x e. unfold lim. rewrite Hl, take_all.
    + rewrite filter_In, Hf. tauto.
    + pose proof (filter_length_le f urls). lia.
  - intros eA eB eC. reflexivity.
Qed.

(** C4: when the limit [k] is below the length of the post-exclusion list,
    the queue is exactly that list's first [k] elements, in order. *)
Theorem limit_takes_prefix (frc : bool) (cc : list string) (k : N)
    (urls : list (string * CollectionEntry))
    (Hk : (k < N.of_nat (length (filter (fun '(x, _) => frc || negb (mem x cc)) urls)))%N) :
  build_items frc cc (Some k) urls
  = firstn (N.to_nat k) (filter (fun '(x, _) => frc || negb (mem x cc)) urls)
  /\ length (build_items frc cc (Some k) urls) = N.to_nat k.
Proof.
  unfold build_items. rewrite take_firstn. split; [reflexivity|].
  rewrite firstn_length_le; [reflexivity|]. lia.
Qed.

Lemma cached_entries_dropped_witness :
  (demo_args false false (Some cutoff_2020) None "/music").(force) = false
  /\ demo_env.(get_download_urls) = Ok demo_urls
  /\ subseq [("A", mkEntry "u-a" (Some "01 Jan 2019 00:00:00 GMT"));
             ("C", mkEntry "u-c" (Some "01 Jan 2021 00:00:00 GMT"))] demo_urls.
Proof.
  split; [reflexivity|]. split; [reflexivity|].
  apply (cached_entries_dropped demo_env (demo_args false false (Some cutoff_2020) None "/music")
           (mkSt [("B", "Old (2018) by Artist")] [] false []) demo_urls
           [("A", mkEntry "u-a" (Some "01 Jan 2019 00:00:00 GMT"));
            ("C", mkEntry "u-c" (Some "01 Jan 2021 00:00:00 GMT"))]);
    reflexivity.
Defined.

Lemma limit_takes_prefix_witness :
  (1 < N.of_nat (length (filter (fun '(x, _) => false || negb (mem x ["B"])) demo_urls)))%N
  /\ build_items false ["B"] (Some 1%N) demo_urls
     = firstn 1 (filter (fun '(x, _) => false || negb (mem x ["B"])) demo_urls).
Proof.
  assert (Hk : (1 < N.of_nat (length (filter (fun '(x, _) => false || negb (mem x ["B"])) demo_urls)))%N)
    by (vm_compute; reflexivity).
  split; [exact Hk|].
  apply (limit_takes_prefix false ["B"] 1%N demo_urls Hk).
Defined.

(** ** The work queue *)

(** C9: whatever the number of workers and the order in which their
    [get_work] calls enter the queue's critical section, the items delivered
    followed by those left are the loaded sequence (no item twice, none
    lost), each delivery goes to one worker, an empty queue answers [None]
    at once, and once a worker has been told so every item was delivered. *)
Theorem work_queue_exactly_once {A} (items : list A) (sched : list nat) :
  WorkQueue.get_work (@nil A) = (None, [])
  /\ let '(ds, qf, ex) := WorkQueue.run_schedule sched (WorkQueue.from_vec items) [] in
     (map snd ds ++ qf)%list = items /\ (ex <> [] -> qf = [] /\ map snd ds = items).
Proof.
  split; [reflexivity|].
  destruct (WorkQueue.run_schedule sched (WorkQueue.from_vec items) []) as [[ds qf] ex] eqn:Hr.
  destruct (QueueFacts.run_schedule_conserves _ _ _ _ _ _ Hr) as [H1 H2].
  split; [exact H1|]. intros Hex. specialize (H2 Hex). subst qf.
  split; [reflexivity|]. rewrite app_nil_r in H1. exact H1.
Qed.

(** ** Facts about one iteration of the dispatch loop *)

(** Unfold one iteration and split on every external outcome. *)
Ltac item_cases :=
  unfold process_item, skip_err, cache_add, cache_add_if_missing, done, push_result,
    emit, set_cache in *;
  repeat match goal with
         | |- context [match ?x with _ => _ end] =>
             lazymatch type of x with
             | prod _ _ => fail
             | _ => let E := fresh "E" in destruct x eqn:E; cbn in *
             end
         end.

Lemma process_item_fetches env args s id info :
  is_before_filter env args.(after) info.(purchased) = None ->
  exists tail, (fst (process_item env args s id info)).(trace)
               = (s.(trace) ++ FetchItem info.(url) :: tail)%list.
Proof.
  intros Hnf. item_cases; try congruence;
    eexists; repeat rewrite <- app_assoc; reflexivity.
Qed.

Example demo_dry_run_line :
  (fst (process_item demo_env (demo_args true false None None "/music") st0
          "C" (mkEntry "u-c" None))).(results) = ["C, Album - Artist"].
Proof. reflexivity. Qed.

Example demo_download :
  (fst (process_item demo_env (demo_args false false None None "/music") st0
          "C" (mkEntry "u-c" None))).(trace)
  = [FetchItem "u-c"; CreateDirAll "/music/Artist/Album"; DownloadItem "/music/Artist/Album" "flac";
     CacheAddIfMissing "C" "Album (2021) by Artist"].
Proof. reflexivity. Qed.

(** ** Dry-run mode *)

(** C1 (as amended): in dry-run mode one iteration creates no directory and
    transfers nothing; the cache either stays as it was or gains one record,
    the after-filter skip, [UNKNOWN] or [No downloads] (never a download
    record); an item the date filter lets through is fetched; and, as on the
    normal path, the after-filter (for an id not yet cached), not-found and
    no-downloads branches do write their record whenever the cache file
    accepts it, while an item with downloads leaves the cache as it was. *)
Theorem dry_run_no_transfer (env : Env) (args : Args) (s : St)
    (id : string) (info : CollectionEntry)
    (Hdry : args.(dry_run) = true) :
  exists delta,
    (fst (process_item env args s id info)).(trace) = (s.(trace) ++ delta)%list
    /\ (forall p, ~ In (CreateDirAll p) delta)
    /\ (forall p f, ~ In (DownloadItem p f) delta)
    /\ ((fst (process_item env args s id info)).(cache) = s.(cache)
        \/ exists d, (fst (process_item env args s id info)).(cache)
                     = (s.(cache) ++ [(id, d)])%list
                     /\ In d ["Skipped (--after filter)"; "UNKNOWN"; "No downloads"])
    /\ (is_before_filter env args.(after) info.(purchased) = None ->
        In (FetchItem info.(url)) delta)
    /\ (forall z, is_before_filter env args.(after) info.(purchased) = Some z ->
        ~ In id (map fst s.(cache)) ->
        env.(cache_append) id "Skipped (--after filter)" = Ok tt ->
        (fst (process_item env args s id info)).(cache)
        = (s.(cache) ++ [(id, "Skipped (--after filter)")])%list)
    /\ (is_before_filter env args.(after) info.(purchased) = None ->
        env.(get_digital_item) info.(url) = Ok None ->
        env.(cache_append) id "UNKNOWN" = Ok tt ->
        (fst (process_item env args s id info)).(cache)
        = (s.(cache) ++ [(id, "UNKNOWN")])%list)
    /\ (forall item, is_before_filter env args.(after) info.(purchased) = None ->
        env.(get_digital_item) info.(url) = Ok (Some item) ->
        item.(downloads) = None ->
        env.(cache_append) id "No downloads" = Ok tt ->
        (fst (process_item env args s id info)).(cache)
        = (s.(cache) ++ [(id, "No downloads")])%list)
    /\ (forall item dls, is_before_filter env args.(after) info.(purchased) = None ->
        env.(get_digital_item) info.(url) = Ok (Some item) ->
        item.(downloads) = Some dls ->
        (fst (process_item env args s id info)).(cache) = s.(cache)).
Proof.
  item_cases; try congruence;
    (eexists; split; [repeat rewrite <- app_assoc; reflexivity|]);
    cbn; (split; [intros; intuition discriminate|]);
    (split; [intros; intuition discriminate|]);
    (split; [first [left; reflexivity
                   | right; eexists; split; [reflexivity|cbn; tauto]]|]);
    (split; [intros; try congruence; cbn; tauto|]);
    repeat split; intros; try congruence; try reflexivity;
    exfalso; match goal with H : ~ In _ _ |- _ => apply H end;
    apply mem_In; assumption.
Qed.

Lemma dry_run_no_transfer_witness :
  (demo_args true false None None "/music").(dry_run) = true
  /\ exists delta,
    (fst (process_item demo_env (demo_args true false None None "/music") st0
            "X" (mkEntry "u-unknown" None))).(trace) = (st0.(trace) ++ delta)%list
    /\ (forall p, ~ In (CreateDirAll p) delta)
    /\ (forall p f, ~ In (DownloadItem p f) delta)
    /\ ((fst (process_item demo_env (demo_args true false None None "/music") st0
               "X" (mkEntry "u-unknown" None))).(cache) = st0.(cache)
        \/ exists d, (fst (process_item demo_env (demo_args true false None None "/music") st0
                             "X" (mkEntry "u-unknown" None))).(cache)
                     = (st0.(cache) ++ [("X", d)])%list
                     /\ In d ["Skipped (--after filter)"; "UNKNOWN"; "No downloads"])
    /\ (is_before_filter demo_env (demo_args true false None None "/music").(after)
          (mkEntry "u-unknown" None).(purchased) = None ->
        In (FetchItem (mkEntry "u-unknown" None).(url)) delta)
    /\ (forall z, is_before_filter demo_env (demo_args true false None None "/music").(after)
          (mkEntry "u-unknown" None).(purchased) = Some z ->
        ~ In "X" (map fst st0.(cache)) ->
        demo_env.(cache_append) "X" "Skipped (--after filter)" = Ok tt ->
        (fst (process_item demo_env (demo_args true false None None "/music") st0
                "X" (mkEntry "u-unknown" None))).(cache)
        = (st0.(cache) ++ [("X", "Skipped (--after filter)")])%list)
    /\ (is_before_filter demo_env (demo_args true false None None "/music").(after)
          (mkEntry "u-unknown" None).(purchased) = None ->
        demo_env.(get_digital_item) (mkEntry "u-unknown" None).(url) = Ok None ->
        demo_env.(cache_append) "X" "UNKNOWN" = Ok tt ->
        (fst (process_item demo_env (demo_args true false None None "/music") st0
                "X" (mkEntry "u-unknown" None))).(cache)
        = (st0.(cache) ++ [("X", "UNKNOWN")])%list)
    /\ (forall item, is_before_filter demo_env (demo_args true false None None "/music").(after)
          (mkEntry "u-unknown" None).(purchased) = None ->
        demo_env.(get_digital_item) (mkEntry "u-unknown" None).(url) = Ok (Some item) ->
        item.(downloads) = None ->
        demo_env.(cache_append) "X" "No downloads" = Ok tt ->
        (fst (process_item demo_env (demo_args true false None None "/music") st0
                "X" (mkEntry "u-unknown" None))).(cache)
        = (st0.(cache) ++ [("X", "No downloads")])%list)
    /\ (forall item dls, is_before_filter demo_env (demo_args true false None None "/music").(after)
          (mkEntry "u-unknown" None).(purchased) = None ->
        demo_env.(get_digital_item) (mkEntry "u-unknown" None).(url) = Ok (Some item) ->
        item.(downloads) = Some dls ->
        (fst (process_item demo_env (demo_args true false None None "/music") st0
                "X" (mkEntry "u-unknown" None))).(cache) = st0.(cache)).
Proof.
  split; [reflexivity|].
  apply (dry_run_no_transfer demo_env (demo_args true false None None "/music") st0
           "X" (mkEntry "u-unknown" None)). reflexivity.
Defined.

(** C1 fails as stated: a dry run whose item is not found writes an
    [UNKNOWN] record to the cache. *)
Lemma dry_run_writes_unknown_record :
  (fst (process_item demo_env (demo_args true false None None "/music") st0
          "X" (mkEntry "u-unknown" None))).(cache) = [("X", "UNKNOWN")]
  /\ (fst (process_item demo_env (demo_args true false None None "/music") st0
             "X" (mkEntry "u-unknown" None))).(cache) <> st0.(cache).
Proof. split; [reflexivity|]. cbn. discriminate. Qed.

(** ** The date filter *)

(** C3: an entry bought strictly before the cutoff gets one
    [add_if_missing(id, "Skipped (--after filter)")] call and nothing else
    but a possible warning (no fetch, no transfer), the record is written
    when the id is new, the worker moves on; an undated entry is never
    filtered; and the date plays no part in building the queue. *)
Theorem after_filter_records_skip (env : Env) (args : Args) (s : St)
    (id : string) (info : CollectionEntry) (a d : Z) (p : string)
    (Ha : args.(after) = Some a) (Hp : info.(purchased) = Some p)
    (Hd : parse_purchased_date env p = Some d) (Hlt : (d < a)%Z) :
  snd (process_item env args s id info) = Next
  /\ (exists tail,
        (fst (process_item env args s id info)).(trace)
        = (s.(trace) ++ CacheAddIfMissing id "Skipped (--after filter)" :: tail)%list
        /\ forall e, In e tail -> exists m, e = Warn m)
  /\ (~ In id (map fst s.(cache)) ->
      env.(cache_append) id "Skipped (--after filter)" = Ok tt ->
      (fst (process_item env args s id info)).(cache)
      = (s.(cache) ++ [(id, "Skipped (--after filter)")])%list)
  /\ is_before_filter env args.(after) None = None
  /\ (forall cc urls, (args.(force) = true \/ ~ In id cc) -> In (id, info) urls ->
      (N.of_nat (length urls) <= usize_MAX)%N ->
      In (id, info) (build_items args.(force) cc None urls)).
Proof.
  assert (Hf : is_before_filter env args.(after) info.(purchased) = Some d).
  { unfold is_before_filter. rewrite Ha, Hp, Hd.
    apply Z.ltb_lt in Hlt. rewrite Hlt. reflexivity. }
  split; [|split; [|split; [|split]]].
  - unfold process_item. rewrite Hf. item_cases; reflexivity.
  - unfold process_item. rewrite Hf. item_cases;
      (eexists; split; [repeat rewrite <- app_assoc; reflexivity|]);
      cbn; intros ev Hev; intuition eauto.
  - intros Hnew Happ. unfold process_item. rewrite Hf. item_cases; try congruence.
    exfalso. apply Hnew. apply mem_In. exact E.
  - rewrite Ha. reflexivity.
  - intros cc urls Hkeep Hin Hlen. unfold build_items. rewrite take_all.
    + apply filter_In. split; [exact Hin|].
      destruct Hkeep as [-> | Hnot]; [reflexivity|].
      apply orb_true_intro. right. apply negb_true_iff.
      destruct (mem id cc) eqn:Em; [|reflexivity].
      exfalso. apply Hnot. apply mem_In. exact Em.
    + pose proof (filter_length_le (fun '(x, _) => force args || negb (mem x cc)) urls). lia.
Qed.

Lemma after_filter_records_skip_witness :
  (demo_args false false (Some cutoff_2020) None "/music").(after) = Some cutoff_2020
  /\ (mkEntry "u-a" (Some "01 Jan 2019 00:00:00 GMT")).(purchased)
     = Some "01 Jan 2019 00:00:00 GMT"
  /\ parse_purchased_date demo_env "01 Jan 2019 00:00:00 GMT" = Some 1546300800%Z
  /\ (1546300800 < cutoff_2020)%Z
  /\ snd (process_item demo_env (demo_args false false (Some cutoff_2020) None "/music") st0
            "A" (mkEntry "u-a" (Some "01 Jan 2019 00:00:00 GMT"))) = Next.
Proof.
  split; [reflexivity|]. split; [reflexivity|]. split; [reflexivity|].
  split; [unfold cutoff_2020; lia|].
  apply (after_filter_records_skip demo_env (demo_args false false (Some cutoff_2020) None "/music")
           st0 "A" (mkEntry "u-a" (Some "01 Jan 2019 00:00:00 GMT"))
           cutoff_2020 1546300800%Z "01 Jan 2019 00:00:00 GMT");
    [reflexivity | reflexivity | reflexivity | unfold cutoff_2020; lia].
Defined.

(** C10: a purchase date that does not parse counts as no date: the entry is
    not filtered, whatever the cutoff, and the worker fetches its metadata. *)
Theorem unparsable_date_not_filtered (env : Env) (args : Args) (s : St)
    (id p : string) (info : CollectionEntry)
    (Hp : info.(purchased) = Some p) (Hparse : parse_purchased_date env p = None) :
  is_before_filter env args.(after) info.(purchased) = None
  /\ exists tail, (fst (process_item env args s id info)).(trace)
                  = (s.(trace) ++ FetchItem info.(url) :: tail)%list.
Proof.
  assert (Hnf : is_before_filter env args.(after) info.(purchased) = None).
  { unfold is_before_filter. rewrite Hp, Hparse. destruct (after args); reflexivity. }
  split; [exact Hnf|]. apply process_item_fetches. exact Hnf.
Qed.

Lemma unparsable_date_not_filtered_witness :
  (mkEntry "u-d" (Some "2019-01-01")).(purchased) = Some "2019-01-01"
  /\ parse_purchased_date demo_env "2019-01-01" = None
  /\ is_before_filter demo_env (Some cutoff_2020) (Some "2019-01-01") = None.
Proof.
  split; [reflexivity|]. split; [reflexivity|].
  apply (unparsable_date_not_filtered demo_env
           (demo_args false false (Some cutoff_2020) None "/music") st0
           "D" "2019-01-01" (mkEntry "u-d" (Some "2019-01-01")));
    reflexivity.
Defined.

(** ** Fetch errors *)

(** C5 (code defect): when [get_digital_item] fails the [Err(_) => continue]
    arm drops the item without the warning the [skip_err!] paths print: the
    only effect is the fetch itself, the cache is untouched, there is no
    second fetch, and the worker goes on with the next item. *)
Theorem fetch_error_skipped_silently :
  process_item demo_env (demo_args false false None None "/music") st0
    "X" (mkEntry "u-err" None)
  = (emit (FetchItem "u-err") st0, Next)
  /\ (forall m, ~ In (Warn m)
        (fst (process_item demo_env (demo_args false false None None "/music") st0
                "X" (mkEntry "u-err" None))).(trace))
  /\ (forall rest,
        worker_loop demo_env (demo_args false false None None "/music") st0
          (("X", mkEntry "u-err" None) :: rest)
        = worker_loop demo_env (demo_args false false None None "/music")
            (emit (FetchItem "u-err") st0) rest).
Proof.
  split; [reflexivity|]. split.
  - cbn. intros m [H|H]; [discriminate|exact H].
  - intros rest. reflexivity.
Qed.

(** ** The force flag *)

(** C6 (as amended): with [force] set the queue ignores the cache content
    (all entries up to the limit are queued); re-processing an id the cache
    already holds leaves the cache as it was on the after-filter and
    download paths ([add_if_missing]), while the not-found and no-downloads
    paths ([add]) may append a second record for it. *)
Theorem force_requeues_all (env : Env) (args : Args) (s : St)
    (id : string) (info : CollectionEntry)
    (Hforce : args.(force) = true) (Hcached : In id (map fst s.(cache))) :
  (forall cc urls,
     build_items args.(force) cc args.(limit) urls = build_items args.(force) [] args.(limit) urls)
  /\ (forall cc urls, (N.of_nat (length urls) <= usize_MAX)%N ->
      build_items args.(force) cc None urls = urls)
  /\ ((fst (process_item env args s id info)).(cache) = s.(cache)
      \/ ((fst (process_item env args s id info)).(cache) = (s.(cache) ++ [(id, "UNKNOWN")])%list
          /\ env.(get_digital_item) info.(url) = Ok None)
      \/ ((fst (process_item env args s id info)).(cache)
          = (s.(cache) ++ [(id, "No downloads")])%list
          /\ exists item, env.(get_digital_item) info.(url) = Ok (Some item)
                          /\ item.(downloads) = None)).
Proof.
  assert (Hall : forall cc (urls : list (string * CollectionEntry)),
             filter (fun '(x, _) => args.(force) || negb (mem x cc)) urls = urls).
  { intros cc urls. rewrite Hforce.
    induction urls as [|[x e] urls IH]; [reflexivity|]. simpl. f_equal. exact IH. }
  assert (Hmem : mem id (map fst s.(cache)) = true) by (apply mem_In; exact Hcached).
  split; [|split].
  - intros cc urls. unfold build_items. rewrite !Hall. reflexivity.
  - intros cc urls Hlen. unfold build_items. rewrite Hall. apply take_all. exact Hlen.
  - unfold mem in Hmem. item_cases; try congruence;
      first [ left; reflexivity
            | right; left; split; reflexivity
            | right; right; split; [reflexivity | eexists; split; [reflexivity | eassumption]] ].
Qed.

Lemma force_requeues_all_witness :
  (demo_args false true None None "/music").(force) = true
  /\ In "X" (map fst [("X", "No downloads")])
  /\ build_items true ["X"] None [("X", mkEntry "u-nodl" None)] = [("X", mkEntry "u-nodl" None)].
Proof.
  split; [reflexivity|]. split; [left; reflexivity|].
  apply (force_requeues_all demo_env (demo_args false true None None "/music")
           (mkSt [("X", "No downloads")] [] false []) "X" (mkEntry "u-nodl" None));
    first [reflexivity | left; reflexivity | unfold usize_MAX; simpl; lia].
Defined.

(** C6 fails as stated: with [force], re-processing an id recorded as
    [No downloads] appends a second record for it through [Cache::add]. *)
Lemma force_duplicates_no_downloads_record :
  build_items true ["X"] None [("X", mkEntry "u-nodl" None)] = [("X", mkEntry "u-nodl" None)]
  /\ (fst (process_item demo_env (demo_args false true None None "/music")
             (mkSt [("X", "No downloads")] [] false []) "X" (mkEntry "u-nodl" None))).(cache)
     = [("X", "No downloads"); ("X", "No downloads")].
Proof. split; reflexivity. Qed.

(** ** Poisoned results collector *)

(** C8: in dry-run mode, when the item reaches the results collector and its
    mutex is poisoned, the worker panics at once (the rest of its queue is
    not processed, nothing is pushed), and a panicked worker makes
    [thread::scope(..).unwrap()] panic the whole command. *)
Theorem poisoned_results_panic (env : Env) (args : Args) (s : St)
    (id : string) (info : CollectionEntry) (item : DigitalItem)
    (dls : list (string * string)) (rest : list (string * CollectionEntry))
    (Hdry : args.(dry_run) = true)
    (Hnf : is_before_filter env args.(after) info.(purchased) = None)
    (Hget : env.(get_digital_item) info.(url) = Ok (Some item))
    (Hdl : item.(downloads) = Some dls)
    (Hpois : s.(results_poisoned) = true) :
  worker_loop env args s ((id, info) :: rest) = (emit (FetchItem info.(url)) s, Panicked)
  /\ (forall outs, In Panicked outs -> scope_unwrap outs = CmdPanic).
Proof.
  split.
  - cbn [worker_loop]. unfold process_item.
    rewrite Hnf, Hget, Hdl, Hdry. cbn. rewrite Hpois. reflexivity.
  - intros outs Hin. unfold scope_unwrap.
    replace (existsb _ outs) with true; [reflexivity|].
    symmetry. apply existsb_exists. exists Panicked. split; [exact Hin|reflexivity].
Qed.

Lemma poisoned_results_panic_witness :
  (demo_args true false None None "/music").(dry_run) = true
  /\ worker_loop demo_env (demo_args true false None None "/music")
       (mkSt [] [] true []) [("C", mkEntry "u-c" None); ("D", mkEntry "u-d" None)]
     = (emit (FetchItem "u-c") (mkSt [] [] true []), Panicked).
Proof.
  split; [reflexivity|].
  apply (poisoned_results_panic demo_env (demo_args true false None None "/music")
           (mkSt [] [] true []) "C" (mkEntry "u-c" None) item_ok
           [("flac", "https://bandcamp.example/flac")] [("D", mkEntry "u-d" None)]);
    reflexivity.
Defined.

(** ** The output root *)

(** C7: a root that exists but is not a directory makes the command exit
    with code 1 before anything else happens (no queue, no cache access,
    cache unchanged); a root whose metadata cannot be read (absent) is first
    created with [create_dir_all]; an existing directory is used as it is,
    with no creation and no exit. *)
Theorem output_root_checked (env : Env) (args : Args) (s : St) (md : result bool string)
    (Hmd : env.(fs_metadata) (env.(shellexpand_tilde) args.(output_folder)) = md) :
  (fst (command_setup env args s)).(cache) = s.(cache)
  /\ match md with
     | Ok false => command_setup env args s = (emit (ExitProcess 1) s, StartExit 1)
     | Err _ =>
         exists tail,
           (fst (command_setup env args s)).(trace)
           = (s.(trace) ++ CreateDirAll (env.(shellexpand_tilde) args.(output_folder)) :: tail)%list
           /\ snd (command_setup env args s) <> StartExit 1
     | Ok true =>
         exists delta,
           (fst (command_setup env args s)).(trace) = (s.(trace) ++ delta)%list
           /\ ~ In (CreateDirAll (env.(shellexpand_tilde) args.(output_folder))) delta
           /\ snd (command_setup env args s) <> StartExit 1
     end.
Proof.
  unfold command_setup, cache_content, emit. rewrite Hmd.
  destruct md as [[|]|e]; cbn.
  - repeat match goal with
           | |- context [match ?x with _ => _ end] =>
               lazymatch type of x with
               | prod _ _ => fail
               | _ => let E := fresh "E" in destruct x eqn:E; cbn
               end
           end;
      (split; [reflexivity|]);
      (eexists; split;
       [first [repeat rewrite <- app_assoc; reflexivity | symmetry; apply app_nil_r]|]);
      cbn; (split; [intuition discriminate | discriminate]).
  - split; reflexivity.
  - repeat match goal with
           | |- context [match ?x with _ => _ end] =>
               lazymatch type of x with
               | prod _ _ => fail
               | _ => let E := fresh "E" in destruct x eqn:E; cbn
               end
           end;
      (split; [reflexivity|]);
      (eexists; split; [repeat rewrite <- app_assoc; reflexivity | discriminate]).
Qed.

Lemma output_root_checked_witness :
  demo_env.(fs_metadata) (demo_env.(shellexpand_tilde) "/music.txt") = Ok false
  /\ command_setup demo_env (demo_args false false None None "/music.txt") st0
     = (emit (ExitProcess 1) st0, StartExit 1).
Proof.
  split; [reflexivity|].
  apply (output_root_checked demo_env (demo_args false false None None "/music.txt") st0 (Ok false)).
  reflexivity.
Defined.

(** ** Further properties of [run.rs] *)

(** What one iteration can do to the shared state: the poison flag is kept,
    the cache gains at most one record (for the item's id), the results at
    most one line (only in dry-run mode), the trace at most one fetch (of the
    item's own URL) and one transfer; a panic needs a dry run on a poisoned
    collector or, outside dry-run mode, a failed progress [println]. *)
Lemma process_item_shape env args s id info :
  (fst (process_item env args s id info)).(results_poisoned) = s.(results_poisoned)
  /\ (exists c, (fst (process_item env args s id info)).(cache) = (s.(cache) ++ c)%list
                /\ (c = [] \/ exists d, c = [(id, d)]))
  /\ (exists l, (fst (process_item env args s id info)).(results) = (s.(results) ++ l)%list
                /\ (l = [] \/ (args.(dry_run) = true /\ exists line, l = [line])))
  /\ (exists delta, (fst (process_item env args s id info)).(trace) = (s.(trace) ++ delta)%list
        /\ count_ev is_fetch delta <= 1 /\ count_ev is_download delta <= 1
        /\ forall u, In (FetchItem u) delta -> u = info.(url))
  /\ (snd (process_item env args s id info) = Panicked ->
      (args.(dry_run) = true /\ s.(results_poisoned) = true)
      \/ (args.(dry_run) = false
          /\ exists item e, env.(get_digital_item) info.(url) = Ok (Some item)
                            /\ env.(progress_println) id item = Err e)).
Proof.
  item_cases; try congruence;
  (split; [reflexivity|]);
  (split; [eexists; split;
           [first [reflexivity | symmetry; apply app_nil_r]
           | first [left; reflexivity | right; eexists; reflexivity]]|]);
  (split; [eexists; split;
           [first [reflexivity | symmetry; apply app_nil_r]
           | first [left; reflexivity
                   | right; split; [first [assumption | reflexivity] | eexists; reflexivity]]]|]);
  (split; [eexists; split; [repeat rewrite <- app_assoc; reflexivity|];
           split; [cbn; lia|]; split; [cbn; lia|];
           intros u Hu; cbn in Hu; intuition congruence|]);
  intros Hpan; first [ discriminate
                     | left; split; first [assumption | reflexivity]
                     | right; split; [first [assumption | reflexivity]|];
                       do 2 eexists; split; [reflexivity | eassumption] ].
Qed.

Lemma count_ev_app p l1 l2 : count_ev p (l1 ++ l2) = count_ev p l1 + count_ev p l2.
Proof. unfold count_ev. rewrite filter_app, length_app. reflexivity. Qed.

(** Peel the first item off a worker's loop. *)
Ltac loop_step IH env args s id info :=
  cbn [worker_loop];
  destruct (process_item_shape env args s id info)
    as [Hp [[c [Hc Hc1]] [[l [Hl Hl1]] [[d [Hd [Hf [Hdl Hfu]]]] Hpan]]]];
  destruct (process_item env args s id info) as [s' [|]] eqn:Ep; cbn in *.

(** X1: a worker never removes or rewrites a cache record: the cache it
    leaves is the one it found followed by new records, each for the id of
    an item it pulled. *)
Theorem worker_cache_append_only (env : Env) (args : Args) (s : St)
    (pulled : list (string * CollectionEntry)) :
  exists c, (fst (worker_loop env args s pulled)).(cache) = (s.(cache) ++ c)%list
            /\ forall r, In r c -> In (fst r) (map fst pulled).
Proof.
  revert s. induction pulled as [|[id info] rest IH]; intros s.
  - exists []. split; [symmetry; apply app_nil_r | intros r []].
  - loop_step IH env args s id info.
    + destruct (IH s') as [c' [Hc' Hin']]. exists (c ++ c')%list.
      rewrite Hc', Hc, app_assoc. split; [reflexivity|].
      intros r Hr. apply in_app_or in Hr. destruct Hr as [Hr|Hr].
      * left. destruct Hc1 as [->|[dd ->]]; [destruct Hr|].
        destruct Hr as [<-|[]]. reflexivity.
      * right. apply Hin'. exact Hr.
    + exists c. split; [exact Hc|].
      intros r Hr. left. destruct Hc1 as [->|[dd ->]]; [destruct Hr|].
      destruct Hr as [<-|[]]. reflexivity.
Qed.

(** X2: a worker's loop ends in a panic only in two ways: a dry run that
    finds the results collector's lock poisoned, or, outside dry-run mode,
    a progress [println] that fails for a pulled item whose details were
    fetched; every other per-item failure leads to the next item. *)
Theorem worker_panics_only_on_poison (env : Env) (args : Args) (s : St)
    (pulled : list (string * CollectionEntry))
    (Hpanic : snd (worker_loop env args s pulled) = Panicked) :
  (args.(dry_run) = true /\ s.(results_poisoned) = true)
  \/ (args.(dry_run) = false
      /\ exists id info item e, In (id, info) pulled
          /\ env.(get_digital_item) info.(url) = Ok (Some item)
          /\ env.(progress_println) id item = Err e).
Proof.
  revert s Hpanic. induction pulled as [|[id info] rest IH]; intros s Hpanic.
  - discriminate.
  - revert Hpanic. loop_step IH env args s id info; intros Hpanic.
    + destruct (IH s' Hpanic) as [[Hd1 Hp1]|[Hd1 [id' [info' [item [e [Hin [Hg Hpr]]]]]]]].
      * left. rewrite <- Hp. split; assumption.
      * right. split; [exact Hd1|]. exists id', info', item, e.
        split; [right; exact Hin | split; assumption].
    + destruct (Hpan eq_refl) as [Hl1'|[Hd1 [item [e [Hg Hpr]]]]].
      * left. exact Hl1'.
      * right. split; [exact Hd1|]. exists id, info, item, e.
        split; [left; reflexivity | split; assumption].
Qed.

Lemma worker_panics_only_on_poison_witness :
  snd (worker_loop demo_env (demo_args true false None None "/music")
         (mkSt [] [] true []) [("C", mkEntry "u-c" None)]) = Panicked
  /\ ((demo_args true false None None "/music").(dry_run) = true
      /\ (mkSt [] [] true []).(results_poisoned) = true
      \/ (demo_args true false None None "/music").(dry_run) = false
         /\ exists id info item e, In (id, info) [("C", mkEntry "u-c" None)]
             /\ demo_env.(get_digital_item) info.(url) = Ok (Some item)
             /\ demo_env.(progress_println) id item = Err e).
Proof.
  split; [reflexivity|].
  apply (worker_panics_only_on_poison demo_env (demo_args true false None None "/music")
           (mkSt [] [] true []) [("C", mkEntry "u-c" None)]).
  reflexivity.
Defined.

(** X3: a worker adds at most one line per pulled item to the results
    collector, and none at all outside dry-run mode. *)
Theorem worker_results_bounded (env : Env) (args : Args) (s : St)
    (pulled : list (string * CollectionEntry)) :
  exists l, (fst (worker_loop env args s pulled)).(results) = (s.(results) ++ l)%list
            /\ length l <= length pulled
            /\ (args.(dry_run) = false -> l = []).
Proof.
  revert s. induction pulled as [|[id info] rest IH]; intros s.
  - exists []. split; [symmetry; apply app_nil_r | split; [cbn; lia | reflexivity]].
  - loop_step IH env args s id info.
    + destruct (IH s') as [l' [Hl' [Hlen Hdry]]]. exists (l ++ l')%list.
      rewrite Hl', Hl, app_assoc. split; [reflexivity|].
      destruct Hl1 as [->|[Hd1 [line ->]]]; cbn; split; try lia.
      * intros H. apply Hdry. exact H.
      * intros H. congruence.
    + exists l. split; [exact Hl|].
      destruct Hl1 as [->|[Hd1 [line ->]]]; cbn; split; try lia; congruence.
Qed.

(** X4: no retries: the events a worker adds to the trace split into one
    segment per pulled item, in order (fewer if the worker panicked), and
    the segment of an item holds at most one metadata fetch, which is of
    that item's own URL, and at most one transfer. *)
Theorem worker_one_attempt_per_item (env : Env) (args : Args) (s : St)
    (pulled : list (string * CollectionEntry)) :
  exists segs, (fst (worker_loop env args s pulled)).(trace) = (s.(trace) ++ concat segs)%list
    /\ length segs <= length pulled
    /\ forall i seg, nth_error segs i = Some seg ->
         exists id info, nth_error pulled i = Some (id, info)
           /\ count_ev is_fetch seg <= 1 /\ count_ev is_download seg <= 1
           /\ forall u, In (FetchItem u) seg -> u = info.(url).
Proof.
  revert s. induction pulled as [|[id info] rest IH]; intros s.
  - exists []. split; [symmetry; apply app_nil_r|]. split; [cbn; lia|].
    intros [|i] seg Hs; discriminate.
  - loop_step IH env args s id info.
    + destruct (IH s') as [segs [Hs [Hlen Hseg]]]. exists (d :: segs).
      rewrite Hs, Hd. cbn. rewrite app_assoc. split; [reflexivity|].
      split; [lia|].
      intros [|i] seg Hi; cbn in Hi.
      * injection Hi as <-. exists id, info. auto.
      * apply Hseg. exact Hi.
    + exists [d]. rewrite Hd. cbn. rewrite app_nil_r. split; [reflexivity|].
      split; [lia|].
      intros [|[|i]] seg Hi; cbn in Hi; try discriminate.
      injection Hi as <-. exists id, info. auto.
Qed.

Lemma subseq_map {A B} (f : A -> B) (l1 l2 : list A) :
  subseq l1 l2 -> subseq (map f l1) (map f l2).
Proof. induction 1; cbn; auto. Qed.

Lemma NoDup_subseq {A} (l1 l2 : list A) : subseq l1 l2 -> NoDup l2 -> NoDup l1.
Proof.
  induction 1; intros Hnd; auto.
  - inversion Hnd; subst. constructor; auto.
    intros Hin. apply H2. eapply subseq_In; eassumption.
  - inversion Hnd; subst. auto.
Qed.

Lemma worker_loop_nodup env args (pulled : list (string * CollectionEntry)) :
  forall s, NoDup (map fst s.(cache)) -> NoDup (map fst pulled) ->
  (forall x, In x (map fst pulled) -> ~ In x (map fst s.(cache))) ->
  NoDup (map fst (fst (worker_loop env args s pulled)).(cache)).
Proof.
  induction pulled as [|[id info] rest IH]; intros s Hc Hp Hdis.
  - exact Hc.
  - cbn in Hp. inversion Hp as [|? ? Hid Hrest]; subst.
    assert (Hnew : NoDup (map fst (fst (process_item env args s id info)).(cache))
                   /\ forall x, In x (map fst rest) ->
                      ~ In x (map fst (fst (process_item env args s id info)).(cache))).
    { destruct (process_item_shape env args s id info) as [_ [[c [Hc' Hc1]] _]].
      rewrite Hc'. destruct Hc1 as [->|[d ->]].
      - rewrite app_nil_r. split; [exact Hc|].
        intros x Hx. apply Hdis. right. exact Hx.
      - rewrite map_app. cbn. split.
        + apply NoDup_app; [exact Hc | constructor; [intros []|constructor] |].
          intros a Ha [Heq|[]]. apply (Hdis a); [left; exact Heq | exact Ha].
        + intros x Hx Hin. rewrite in_app_iff in Hin. destruct Hin as [Hin|[<-|[]]].
          * apply (Hdis x); [right; exact Hx | exact Hin].
          * apply Hid. exact Hx. }
    destruct Hnew as [Hnd Hdis'].
    cbn [worker_loop].
    destruct (process_item env args s id info) as [s' [|]] eqn:Ep; cbn in *.
    + apply IH; assumption.
    + exact Hnd.
Qed.

(** X5: with [force] off, a worker draining the queue built at startup
    keeps the cache free of duplicate ids, provided the cache and the
    purchase list had none: the unconditional [add] of [UNKNOWN] and
    [No downloads] only ever meets ids the cache does not hold. *)
Theorem worker_keeps_cache_ids_unique (env : Env) (args : Args) (s : St) (lim : option N)
    (urls : list (string * CollectionEntry))
    (Hc : NoDup (map fst s.(cache))) (Hu : NoDup (map fst urls)) :
  NoDup (map fst (fst (worker_loop env args s
                          (build_items false (map fst s.(cache)) lim urls))).(cache)).
Proof.
  apply worker_loop_nodup; [exact Hc| |].
  - eapply NoDup_subseq; [|exact Hu]. apply subseq_map.
    unfold build_items. eapply subseq_trans; [apply subseq_take | apply subseq_filter].
  - intros x Hx Hin. apply in_map_iff in Hx. destruct Hx as [[x' e] [Hx' Hq]]. cbn in Hx'. subst x'.
    unfold build_items in Hq.
    pose proof (subseq_In _ _ _ (subseq_take _ _) Hq) as Hq'.
    apply filter_In in Hq'. destruct Hq' as [_ Hkeep]. cbn in Hkeep.
    apply mem_In in Hin. rewrite Hin in Hkeep. discriminate.
Qed.

Lemma worker_keeps_cache_ids_unique_witness :
  NoDup (map fst [("B", "Old (2018) by Artist")])
  /\ NoDup (map fst demo_urls)
  /\ NoDup (map fst (fst (worker_loop demo_env (demo_args false false None None "/music")
                            (mkSt [("B", "Old (2018) by Artist")] [] false [])
                            (build_items false (map fst [("B", "Old (2018) by Artist")]) None
                               demo_urls))).(cache)).
Proof.
  assert (H1 : NoDup (map fst [("B", "Old (2018) by Artist")]))
    by (constructor; [intros []|constructor]).
  assert (H2 : NoDup (map fst demo_urls)).
  { cbn. constructor; [cbn; intuition discriminate|].
    constructor; [cbn; intuition discriminate|]. constructor; [intros []|constructor]. }
  split; [exact H1|]. split; [exact H2|].
  apply (worker_keeps_cache_ids_unique demo_env (demo_args false false None None "/music")
           (mkSt [("B", "Old (2018) by Artist")] [] false []) None demo_urls H1 H2).
Defined.

Lemma build_items_excludes (cc : list string) lim urls x e :
  In x cc -> ~ In (x, e) (build_items false cc lim urls).
Proof.
  intros Hx Hin. unfold build_items in Hin.
  pose proof (subseq_In _ _ _ (subseq_take _ _) Hin) as Hin'.
  apply filter_In in Hin'. destruct Hin' as [_ Hk]. cbn in Hk.
  apply mem_In in Hx. rewrite Hx in Hk. discriminate.
Qed.

Lemma build_items_keeps (cc : list string) urls x e :
  ~ In x cc -> In (x, e) urls -> (N.of_nat (length urls) <= usize_MAX)%N ->
  In (x, e) (build_items false cc None urls).
Proof.
  intros Hx Hin Hlen. unfold build_items. rewrite take_all.
  - apply filter_In. split; [exact Hin|]. cbn.
    destruct (mem x cc) eqn:Em; [|reflexivity].
    exfalso. apply Hx. apply mem_In. exact Em.
  - pose proof (filter_length_le (fun '(x, _) => false || negb (mem x cc)) urls). lia.
Qed.

(** X6: a successful download of an id the cache does not hold records
    ["<title> (<year>) by <artist>"] for it, so the next run without
    [force] does not queue it again. *)
Theorem downloaded_item_not_requeued (env : Env) (args : Args) (s : St)
    (id : string) (info : CollectionEntry) (item : DigitalItem) (dls : list (string * string))
    (Hdry : args.(dry_run) = false)
    (Hnf : is_before_filter env args.(after) info.(purchased) = None)
    (Hget : env.(get_digital_item) info.(url) = Ok (Some item))
    (Hdl : item.(downloads) = Some dls)
    (Hpr : env.(progress_println) id item = Ok tt)
    (Hmk : env.(fs_create_dir_all)
             (env.(destination_path) item (env.(shellexpand_tilde) args.(output_folder))) = Ok tt)
    (Hdown : env.(download_item) item
               (env.(destination_path) item (env.(shellexpand_tilde) args.(output_folder)))
               args.(audio_format) = Ok tt)
    (Hnew : ~ In id (map fst s.(cache)))
    (Happ : env.(cache_append) id
              (item.(title) ++ " (" ++ item.(release_year) ++ ") by " ++ item.(artist)) = Ok tt) :
  (fst (process_item env args s id info)).(cache)
  = (s.(cache) ++ [(id, (item.(title) ++ " (" ++ item.(release_year) ++ ") by " ++ item.(artist))%string)])%list
  /\ forall lim urls e,
       ~ In (id, e) (build_items false (map fst (fst (process_item env args s id info)).(cache))
                       lim urls).
Proof.
  assert (Hc : (fst (process_item env args s id info)).(cache)
    = (s.(cache) ++ [(id, (item.(title) ++ " (" ++ item.(release_year) ++ ") by " ++ item.(artist))%string)])%list).
  { unfold process_item. rewrite Hnf, Hget, Hdl, Hdry, Hpr.
    unfold skip_err, cache_add_if_missing, emit. cbn. rewrite Hmk. cbn. rewrite Hdown. cbn.
    destruct (existsb (String.eqb id) (map fst (cache s))) eqn:Em.
    - exfalso. apply Hnew. apply mem_In. exact Em.
    - cbn in Happ. rewrite Happ. reflexivity. }
  split; [exact Hc|].
  intros lim urls e. apply build_items_excludes.
  rewrite Hc, map_app. apply in_or_app. right. left. reflexivity.
Qed.

Lemma downloaded_item_not_requeued_witness :
  (fst (process_item demo_env (demo_args false false None None "/music") st0
          "C" (mkEntry "u-c" None))).(cache) = [("C", "Album (2021) by Artist")].
Proof.
  apply (downloaded_item_not_requeued demo_env (demo_args false false None None "/music") st0
           "C" (mkEntry "u-c" None) item_ok [("flac", "https://bandcamp.example/flac")]);
    first [reflexivity | intros []].
Defined.

(** X7: when creating the destination folder or the transfer fails, the
    worker warns ["An error: <e>; skipped."], writes no cache record and
    moves on, so the next run without [force] queues the item again. *)
Theorem failed_transfer_requeued (env : Env) (args : Args) (s : St)
    (id : string) (info : CollectionEntry) (item : DigitalItem) (dls : list (string * string))
    (e : string)
    (Hdry : args.(dry_run) = false)
    (Hnf : is_before_filter env args.(after) info.(purchased) = None)
    (Hget : env.(get_digital_item) info.(url) = Ok (Some item))
    (Hdl : item.(downloads) = Some dls)
    (Hpr : env.(progress_println) id item = Ok tt)
    (Hfail : env.(fs_create_dir_all)
               (env.(destination_path) item (env.(shellexpand_tilde) args.(output_folder))) = Err e
             \/ (env.(fs_create_dir_all)
                   (env.(destination_path) item (env.(shellexpand_tilde) args.(output_folder))) = Ok tt
                 /\ env.(download_item) item
                      (env.(destination_path) item (env.(shellexpand_tilde) args.(output_folder)))
                      args.(audio_format) = Err e)) :
  snd (process_item env args s id info) = Next
  /\ (fst (process_item env args s id info)).(cache) = s.(cache)
  /\ In (Warn ("An error: " ++ e ++ "; skipped.")) (fst (process_item env args s id info)).(trace)
  /\ forall urls info', In (id, info') urls -> ~ In id (map fst s.(cache)) ->
       (N.of_nat (length urls) <= usize_MAX)%N ->
       In (id, info') (build_items false (map fst (fst (process_item env args s id info)).(cache))
                         None urls).
Proof.
  assert (H : snd (process_item env args s id info) = Next
              /\ (fst (process_item env args s id info)).(cache) = s.(cache)
              /\ In (Warn ("An error: " ++ e ++ "; skipped."))
                    (fst (process_item env args s id info)).(trace)).
  { unfold process_item. rewrite Hnf, Hget, Hdl, Hdry, Hpr.
    unfold skip_err, emit. cbn.
    destruct Hfail as [Hf | [Hf1 Hf2]].
    - rewrite Hf. cbn. split; [reflexivity|]. split; [reflexivity|].
      apply in_or_app. right. left. reflexivity.
    - rewrite Hf1. cbn. rewrite Hf2. cbn. split; [reflexivity|]. split; [reflexivity|].
      apply in_or_app. right. left. reflexivity. }
  destruct H as [H1 [H2 H3]].
  split; [exact H1|]. split; [exact H2|]. split; [exact H3|].
  intros urls info' Hin Hnew Hlen. rewrite H2. apply build_items_keeps; assumption.
Qed.

Lemma failed_transfer_requeued_witness :
  snd (process_item
         {| chrono_parse_from_str := demo_env.(chrono_parse_from_str);
            shellexpand_tilde := demo_env.(shellexpand_tilde);
            fs_metadata := demo_env.(fs_metadata);
            fs_create_dir_all := demo_env.(fs_create_dir_all);
            get_bandcamp_cookies := demo_env.(get_bandcamp_cookies);
            get_download_urls := demo_env.(get_download_urls);
            get_digital_item := demo_env.(get_digital_item);
            destination_path := demo_env.(destination_path);
            download_item := fun _ _ _ => Err "connection reset";
            progress_println := demo_env.(progress_println);
            cache_read := demo_env.(cache_read);
            cache_append := demo_env.(cache_append) |}
         (demo_args false false None None "/music") st0 "C" (mkEntry "u-c" None)) = Next.
Proof.
  apply (failed_transfer_requeued _ (demo_args false false None None "/music") st0
           "C" (mkEntry "u-c" None) item_ok [("flac", "https://bandcamp.example/flac")]
           "connection reset");
    first [reflexivity | right; split; reflexivity].
Defined.

(** ** The [--after] cutoff *)

(** X8: [parse_date] never reaches a panicking [unwrap], turns a day [D]
    into the timestamp of its midnight, and with that cutoff an item is
    skipped exactly when it was bought on an earlier day: a purchase at any
    time on the cutoff day itself is kept. *)
Theorem after_cutoff_is_day_granular (naive_date_parse_from_str : string -> string -> option Z)
    (env : Env) (s : string) (D : Z) (p : string) (t : Z)
    (Hd : naive_date_parse_from_str s "%Y-%m-%d" = Some D)
    (Hp : parse_purchased_date env p = Some t) :
  (forall s', parse_date naive_date_parse_from_str s' <> None)
  /\ parse_date naive_date_parse_from_str s = Some (Ok (D * 86400)%Z)
  /\ (is_before_filter env (Some (D * 86400)%Z) (Some p) = Some t <-> (t / 86400 < D)%Z).
Proof.
  split; [|split].
  - intros s'. unfold parse_date.
    destruct (naive_date_parse_from_str s' "%Y-%m-%d"); discriminate.
  - unfold parse_date. rewrite Hd. unfold and_hms_opt, and_utc. cbn.
    f_equal. f_equal. lia.
  - unfold is_before_filter. rewrite Hp.
    pose proof (Z.div_mod t 86400 ltac:(lia)) as Hdm.
    pose proof (Z.mod_pos_bound t 86400 ltac:(lia)) as Hb.
    set (q := (t / 86400)%Z) in *. set (r := (t mod 86400)%Z) in *.
    destruct (Z.ltb_spec t (D * 86400)); split; intros Hx; try lia; try congruence.
Qed.

Lemma after_cutoff_is_day_granular_witness :
  is_before_filter demo_env (Some (18262 * 86400)%Z) (Some "01 Jan 2019 00:00:00 GMT")
  = Some 1546300800%Z.
Proof.
  apply (after_cutoff_is_day_granular (fun _ _ => Some 18262%Z) demo_env "2020-01-01" 18262
           "01 Jan 2019 00:00:00 GMT" 1546300800); [reflexivity | reflexivity |].
  vm_compute. reflexivity.
Defined.

(** X9: an item skipped at some cutoff is skipped at every later cutoff,
    and an item bought exactly at the cutoff instant is not skipped. *)
Theorem after_filter_monotone (env : Env) (a a' t : Z) (p : option string)
    (Hle : (a <= a')%Z) (Hskip : is_before_filter env (Some a) p = Some t) :
  is_before_filter env (Some a') p = Some t
  /\ is_before_filter env (Some t) p = None.
Proof.
  unfold is_before_filter in *.
  destruct p as [p|]; [|discriminate].
  destruct (parse_purchased_date env p) as [t0|]; [|discriminate].
  destruct (Z.ltb_spec t0 a); [|discriminate].
  inversion Hskip; subst t0.
  split.
  - destruct (Z.ltb_spec t a'); [reflexivity|lia].
  - rewrite Z.ltb_irrefl. reflexivity.
Qed.

Lemma after_filter_monotone_witness :
  is_before_filter demo_env (Some (cutoff_2020 + 86400)%Z) (Some "01 Jan 2019 00:00:00 GMT")
  = Some 1546300800%Z.
Proof.
  apply (after_filter_monotone demo_env cutoff_2020 (cutoff_2020 + 86400)%Z 1546300800%Z
           (Some "01 Jan 2019 00:00:00 GMT"));
    [unfold cutoff_2020; lia | reflexivity].
Defined.

(** ** The limit *)

(** X10: raising the limit only appends to the queue; the queue never holds
    more entries than the limit, and a limit of 0 gives an empty queue. *)
Theorem limit_monotone (frc : bool) (cc : list string) (k k' : N)
    (urls : list (string * CollectionEntry)) (Hle : (k <= k')%N) :
  (exists suffix, build_items frc cc (Some k') urls = (build_items frc cc (Some k) urls ++ suffix)%list)
  /\ length (build_items frc cc (Some k) urls) <= N.to_nat k
  /\ build_items frc cc (Some 0%N) urls = [].
Proof.
  unfold build_items. rewrite !take_firstn.
  set (l := filter _ urls).
  split; [|split].
  - exists (skipn (N.to_nat k) (firstn (N.to_nat k') l)).
    rewrite <- (firstn_skipn (N.to_nat k) (firstn (N.to_nat k') l)) at 1.
    rewrite firstn_firstn. f_equal. f_equal. lia.
  - apply firstn_le_length.
  - reflexivity.
Qed.

Lemma limit_monotone_witness :
  (1 <= 3)%N
  /\ length (build_items false [] (Some 1%N) demo_urls) <= N.to_nat 1.
Proof.
  split; [lia|].
  apply (limit_monotone false [] 1 3 demo_urls). lia.
Defined.

(** ** Setup failures *)

Ltac setup_cases :=
  repeat match goal with
         | |- context [match ?x with _ => _ end] =>
             lazymatch type of x with
             | prod _ _ => fail
             | _ => let E := fresh "E" in destruct x eqn:E; cbn
             end
         end.

(** X11: setup writes nothing to the cache or the results. A queue is built
    only when the cookies, the purchase listing and the cache read all
    succeed, after the cache content was read; when the cookies cannot be
    obtained, the command stops before opening the cache. *)
Theorem setup_failures_stop_early (env : Env) (args : Args) (s : St) :
  (fst (command_setup env args s)).(cache) = s.(cache)
  /\ (fst (command_setup env args s)).(results) = s.(results)
  /\ (forall items, snd (command_setup env args s) = StartQueue items ->
        (exists u, env.(get_bandcamp_cookies) = Ok u)
        /\ (exists urls, env.(get_download_urls) = Ok urls)
        /\ (exists u, env.(cache_read) = Ok u)
        /\ In CacheContent (fst (command_setup env args s)).(trace))
  /\ (forall e, env.(get_bandcamp_cookies) = Err e ->
        (snd (command_setup env args s) = StartExit 1
         \/ exists e', snd (command_setup env args s) = StartErr e')
        /\ forall path, In (CacheOpen path) (fst (command_setup env args s)).(trace) ->
                        In (CacheOpen path) s.(trace)).
Proof.
  unfold command_setup, cache_content, emit.
  setup_cases.
  all: (split; [reflexivity|]); (split; [reflexivity|]).
  all: split; [intros items Hq; try discriminate|].
  all: try (split; [eexists; reflexivity|]).
  all: try (split; [eexists; reflexivity|]).
  all: try (split; [destruct (cache_read env); [eexists; reflexivity | discriminate]|];
            rewrite <- !app_assoc; apply in_or_app; right; cbn; tauto).
  all: intros e0 He; try discriminate.
  all: split; [first [left; reflexivity | right; eexists; reflexivity]|].
  all: intros path Hin; rewrite ?in_app_iff in Hin; cbn in Hin; intuition discriminate.
Qed.
